(** * Multisig (Argent-style) account program: a shallow embedding in Rocq

    Embedding of [programs/multisig/src/lib.rs], an Anchor program with one
    account record ([ArgentAccount]) controlled jointly by an owner and a
    guardian, with a time-locked escape (recovery) state machine.

    Model choices:
    - [Pubkey] is its 32 bytes, a list of [byte]; signatures ([u8; 64]) and
      transaction data ([Vec<u8>]) are lists of bytes too.
    - [i64] fields are [Z]; the one arithmetic operation of the program,
      [clock.unix_timestamp - escape_initiated_at], is an [i64] subtraction.
      It is modelled as the checked subtraction of an Anchor build with
      [overflow-checks = true] (the Anchor workspace default): an overflow
      panics, which aborts the instruction with an error.
    - A handler runs in a state and error monad over the account record: each
      Rust statement that writes a field is one [modify]; a failing
      [require!] or [?] returns the error with the record as it is at that
      point (no rollback is assumed, so that the absence of writes before a
      failure is a property of the handler itself).
    - The clock ([Clock::get()?.unix_timestamp]) is an argument [now]; the
      cross-program invocation of [upgrade] is an argument [cpi], its outcome.
    - An instruction first runs Anchor's account validation, generated from
      the [#[derive(Accounts)]] structs: every [Signer<'info>] field is
      checked to be a signer (error [AccountNotSigner]), in field order, and
      then every [constraint = ...] is checked (error [ConstraintRaw]).
    - After a successful handler, Anchor's exit step serialises the record
      back into its account, of the [space] allocated by [create]
      ([run_instruction]); [create] itself is an instruction on an account
      that may already exist ([create_instruction]). *)

From Stdlib Require Import ZArith List Bool Lia.
From Stdlib Require Import Strings.Byte.
Import ListNotations.
Open Scope Z_scope.

(** ** Data model *)

Definition Pubkey := list byte.

Definition pubkey_eqb (a b : Pubkey) : bool :=
  if list_eq_dec byte_eq_dec a b then true else false.

(** [#[derive(PartialEq)] pub enum EscapeType { None, Guardian, Owner }] *)
Module EscapeType.
Inductive t := None | Guardian | Owner.

Definition eqb (x y : t) : bool :=
  match x, y with
  | None, None | Guardian, Guardian | Owner, Owner => true
  | _, _ => false
  end.

Lemma eqb_spec (x y : t) : eqb x y = true <-> x = y.
Proof. destruct x, y; simpl; split; congruence. Qed.
End EscapeType.

(** [pub struct PendingTransaction] *)
Record PendingTransaction := {
  data : list byte;
  owner_approved : bool;
  guardian_approved : bool;
}.

(** [#[account] pub struct ArgentAccount] *)
Record ArgentAccount := {
  owner : Pubkey;
  guardian : Pubkey;
  guardian_backup : option Pubkey;
  escape_type : EscapeType.t;
  escape_initiated_at : Z;
  security_period : Z;
  pending_tx : option PendingTransaction;
}.

(** Field writes [argent_account.<field> = v]. *)
Definition set_owner (v : Pubkey) (a : ArgentAccount) : ArgentAccount :=
  {| owner := v; guardian := guardian a; guardian_backup := guardian_backup a;
     escape_type := escape_type a; escape_initiated_at := escape_initiated_at a;
     security_period := security_period a; pending_tx := pending_tx a |}.
Definition set_guardian (v : Pubkey) (a : ArgentAccount) : ArgentAccount :=
  {| owner := owner a; guardian := v; guardian_backup := guardian_backup a;
     escape_type := escape_type a; escape_initiated_at := escape_initiated_at a;
     security_period := security_period a; pending_tx := pending_tx a |}.
Definition set_guardian_backup (v : option Pubkey) (a : ArgentAccount) : ArgentAccount :=
  {| owner := owner a; guardian := guardian a; guardian_backup := v;
     escape_type := escape_type a; escape_initiated_at := escape_initiated_at a;
     security_period := security_period a; pending_tx := pending_tx a |}.
Definition set_escape_type (v : EscapeType.t) (a : ArgentAccount) : ArgentAccount :=
  {| owner := owner a; guardian := guardian a; guardian_backup := guardian_backup a;
     escape_type := v; escape_initiated_at := escape_initiated_at a;
     security_period := security_period a; pending_tx := pending_tx a |}.
Definition set_escape_initiated_at (v : Z) (a : ArgentAccount) : ArgentAccount :=
  {| owner := owner a; guardian := guardian a; guardian_backup := guardian_backup a;
     escape_type := escape_type a; escape_initiated_at := v;
     security_period := security_period a; pending_tx := pending_tx a |}.
Definition set_security_period (v : Z) (a : ArgentAccount) : ArgentAccount :=
  {| owner := owner a; guardian := guardian a; guardian_backup := guardian_backup a;
     escape_type := escape_type a; escape_initiated_at := escape_initiated_at a;
     security_period := v; pending_tx := pending_tx a |}.
Definition set_pending_tx (v : option PendingTransaction) (a : ArgentAccount) : ArgentAccount :=
  {| owner := owner a; guardian := guardian a; guardian_backup := guardian_backup a;
     escape_type := escape_type a; escape_initiated_at := escape_initiated_at a;
     security_period := security_period a; pending_tx := v |}.

(** [#[error_code] pub enum ErrorCode] *)
Inductive ErrorCode :=
| NotEnoughApprovals
| InvalidOwner
| InvalidGuardian
| InvalidSignature
| EscapeGuardianInProgress
| InvalidEscapeType
| SecurityPeriodNotElapsed
| NoEscapeInProgress.

(** The errors an instruction can end with: the program's own codes, Anchor's
    account-validation errors, an arithmetic-overflow panic, a failure
    returned by the invoked loader program, Anchor's failure to write the
    record back into its account ([AccountDidNotSerialize]), and the system
    program's refusal to allocate an account that exists already
    ([AccountAlreadyInUse], for [init]). *)
Inductive Error :=
| Program (c : ErrorCode)
| AccountNotSigner
| ConstraintRaw
| ArithmeticOverflow
| CpiFailed
| AccountDidNotSerialize
| AccountAlreadyInUse.

Inductive Result (A : Type) :=
| Ok (x : A)
| Err (e : Error).
Arguments Ok {A} x.
Arguments Err {A} e.

(** ** The handler monad: state (the account record) and errors *)

Definition M (A : Type) := ArgentAccount -> Result A * ArgentAccount.

Definition ret {A} (x : A) : M A := fun s => (Ok x, s).
Definition throw {A} (e : Error) : M A := fun s => (Err e, s).
Definition bind {A B} (m : M A) (k : A -> M B) : M B :=
  fun s => match m s with
           | (Ok x, s') => k x s'
           | (Err e, s') => (Err e, s')
           end.
Definition get : M ArgentAccount := fun s => (Ok s, s).
Definition modify (f : ArgentAccount -> ArgentAccount) : M unit :=
  fun s => (Ok tt, f s).

Notation "x <- m ;; k" := (bind m (fun x => k))
  (at level 61, m at next level, right associativity).
Notation "m ;; k" := (bind m (fun _ => k))
  (at level 61, right associativity).

(** [require!(cond, ErrorCode::c)] *)
Definition require (cond : bool) (c : ErrorCode) : M unit :=
  if cond then ret tt else throw (Program c).

(** [r?] for a result [r] computed outside the record. *)
Definition lift {A} (r : Result A) : M A :=
  match r with Ok x => ret x | Err e => throw e end.

(** [i64] range and the checked subtraction [a - b]. *)
Definition I64_MIN : Z := - 2 ^ 63.
Definition I64_MAX : Z := 2 ^ 63 - 1.
Definition in_i64 (x : Z) : bool := (I64_MIN <=? x) && (x <=? I64_MAX).
Definition i64_sub (a b : Z) : Result Z :=
  let d := a - b in if in_i64 d then Ok d else Err ArithmeticOverflow.

(** The same subtraction in a build without overflow checks: the result
    wraps around modulo [2^64] into the [i64] range. *)
Definition i64_wrapping_sub (a b : Z) : Z := (a - b - I64_MIN) mod 2 ^ 64 + I64_MIN.

(** ** Handlers ([#[program] pub mod multisig])

    [Ctx] holds what a handler reads from [ctx.accounts]: the [is_signer]
    flags of the [owner] and [guardian] accounts. *)
Record Ctx := {
  owner_is_signer : bool;
  guardian_is_signer : bool;
}.

Definition create (owner guardian : Pubkey) (security_period : option Z) : M unit :=
  modify (set_owner owner) ;;
  modify (set_guardian guardian) ;;
  modify (set_guardian_backup None) ;;
  modify (set_escape_type EscapeType.None) ;;
  modify (set_escape_initiated_at 0) ;;
  (* security_period.unwrap_or(604800) *)
  modify (set_security_period
            (match security_period with Some p => p | None => 604800 end)) ;;
  modify (set_pending_tx None) ;;
  ret tt.

Definition execute (ctx : Ctx) (data : list byte) : M unit :=
  let owner_signed := owner_is_signer ctx in
  let guardian_signed := guardian_is_signer ctx in
  require (owner_signed && guardian_signed) NotEnoughApprovals ;;
  modify (set_pending_tx (Some {| data := data; owner_approved := true;
                                  guardian_approved := true |})) ;;
  ret tt.

(** [new_owner_signature != [0; 64]] *)
Definition zero_signature : list byte := repeat x00 64.

Definition change_owner (ctx : Ctx) (new_owner : Pubkey)
    (new_owner_signature : list byte) : M unit :=
  let owner_signed := owner_is_signer ctx in
  let guardian_signed := guardian_is_signer ctx in
  require (owner_signed && guardian_signed) NotEnoughApprovals ;;
  require (negb (if list_eq_dec byte_eq_dec new_owner_signature zero_signature
                 then true else false)) InvalidSignature ;;
  modify (set_owner new_owner) ;;
  ret tt.

Definition change_guardian (ctx : Ctx) (new_guardian : Pubkey) : M unit :=
  let owner_signed := owner_is_signer ctx in
  let guardian_signed := guardian_is_signer ctx in
  require (owner_signed && guardian_signed) NotEnoughApprovals ;;
  modify (set_guardian new_guardian) ;;
  ret tt.

Definition change_guardian_backup (ctx : Ctx)
    (new_guardian_backup : option Pubkey) : M unit :=
  let owner_signed := owner_is_signer ctx in
  let guardian_signed := guardian_is_signer ctx in
  require (owner_signed && guardian_signed) NotEnoughApprovals ;;
  modify (set_guardian_backup new_guardian_backup) ;;
  ret tt.

(** The [msg!] of the override branch has no effect on the record. *)
Definition trigger_escape_guardian (ctx : Ctx) (now : Z) : M unit :=
  let owner_signed := owner_is_signer ctx in
  require owner_signed NotEnoughApprovals ;;
  modify (set_escape_type EscapeType.Guardian) ;;
  modify (set_escape_initiated_at now) ;;
  ret tt.

Definition trigger_escape_owner (ctx : Ctx) (now : Z) : M unit :=
  let guardian_signed := guardian_is_signer ctx in
  require guardian_signed NotEnoughApprovals ;;
  a <- get ;;
  require (negb (EscapeType.eqb (escape_type a) EscapeType.Guardian))
          EscapeGuardianInProgress ;;
  modify (set_escape_type EscapeType.Owner) ;;
  modify (set_escape_initiated_at now) ;;
  ret tt.

Definition escape_guardian (ctx : Ctx) (now : Z) (new_guardian : Pubkey) : M unit :=
  let owner_signed := owner_is_signer ctx in
  require owner_signed NotEnoughApprovals ;;
  a <- get ;;
  require (EscapeType.eqb (escape_type a) EscapeType.Guardian) InvalidEscapeType ;;
  elapsed <- lift (i64_sub now (escape_initiated_at a)) ;;
  require (security_period a <=? elapsed) SecurityPeriodNotElapsed ;;
  modify (set_guardian new_guardian) ;;
  modify (set_escape_type EscapeType.None) ;;
  modify (set_escape_initiated_at 0) ;;
  ret tt.

(** [escape_guardian] as compiled without overflow checks, where the
    subtraction wraps instead of aborting. *)
Definition escape_guardian_wrapping (ctx : Ctx) (now : Z) (new_guardian : Pubkey)
    : M unit :=
  let owner_signed := owner_is_signer ctx in
  require owner_signed NotEnoughApprovals ;;
  a <- get ;;
  require (EscapeType.eqb (escape_type a) EscapeType.Guardian) InvalidEscapeType ;;
  let elapsed := i64_wrapping_sub now (escape_initiated_at a) in
  require (security_period a <=? elapsed) SecurityPeriodNotElapsed ;;
  modify (set_guardian new_guardian) ;;
  modify (set_escape_type EscapeType.None) ;;
  modify (set_escape_initiated_at 0) ;;
  ret tt.

Definition escape_owner (ctx : Ctx) (now : Z) (new_owner : Pubkey) : M unit :=
  let guardian_signed := guardian_is_signer ctx in
  require guardian_signed NotEnoughApprovals ;;
  a <- get ;;
  require (EscapeType.eqb (escape_type a) EscapeType.Owner) InvalidEscapeType ;;
  elapsed <- lift (i64_sub now (escape_initiated_at a)) ;;
  require (security_period a <=? elapsed) SecurityPeriodNotElapsed ;;
  modify (set_owner new_owner) ;;
  modify (set_escape_type EscapeType.None) ;;
  modify (set_escape_initiated_at 0) ;;
  ret tt.

Definition cancel_escape (ctx : Ctx) : M unit :=
  let owner_signed := owner_is_signer ctx in
  let guardian_signed := guardian_is_signer ctx in
  require (owner_signed && guardian_signed) NotEnoughApprovals ;;
  a <- get ;;
  require (negb (EscapeType.eqb (escape_type a) EscapeType.None)) NoEscapeInProgress ;;
  modify (set_escape_type EscapeType.None) ;;
  modify (set_escape_initiated_at 0) ;;
  ret tt.

(** [invoke(&upgrade_ix, ...)?]: [cpi] is what the loader program returns. *)
Definition upgrade (ctx : Ctx) (cpi : Result unit) : M unit :=
  let owner_signed := owner_is_signer ctx in
  let guardian_signed := guardian_is_signer ctx in
  require (owner_signed && guardian_signed) NotEnoughApprovals ;;
  lift cpi ;;
  ret tt.

(** ** Instructions and Anchor account validation *)

(** An account passed to an instruction, as the runtime presents it. *)
Record AccountInfo := {
  key : Pubkey;
  is_signer : bool;
}.

(** The [owner], [guardian] and (for [Upgrade]) [upgrade_authority]
    accounts of an instruction; an instruction whose accounts struct has no
    such field ignores it. *)
Record Accounts := {
  acc_owner : AccountInfo;
  acc_guardian : AccountInfo;
  acc_upgrade_authority : AccountInfo;
}.

Inductive Instruction :=
| Execute (data : list byte)
| ChangeOwner (new_owner : Pubkey) (new_owner_signature : list byte)
| ChangeGuardian (new_guardian : Pubkey)
| ChangeGuardianBackup (new_guardian_backup : option Pubkey)
| TriggerEscapeGuardian
| TriggerEscapeOwner
| EscapeGuardian (new_guardian : Pubkey)
| EscapeOwner (new_owner : Pubkey)
| CancelEscape
| Upgrade.

(** [Signer<'info>]: the account must have signed. *)
Definition check_signer (ai : AccountInfo) : M unit :=
  if is_signer ai then ret tt else throw AccountNotSigner.

(** [#[account(constraint = argent_account.owner == owner.key())]] *)
Definition check_owner_constraint (ai : AccountInfo) : M unit :=
  a <- get ;;
  if pubkey_eqb (owner a) (key ai) then ret tt else throw ConstraintRaw.

(** [#[account(constraint = argent_account.guardian == guardian.key())]] *)
Definition check_guardian_constraint (ai : AccountInfo) : M unit :=
  a <- get ;;
  if pubkey_eqb (guardian a) (key ai) then ret tt else throw ConstraintRaw.

(** The generated [try_accounts] of each accounts struct: the fields are
    deserialised in order (the [Signer] checks), then the constraints run. *)
Definition try_accounts (ix : Instruction) (accs : Accounts) : M unit :=
  match ix with
  | Execute _ | ChangeOwner _ _ | ChangeGuardian _ | ChangeGuardianBackup _
  | CancelEscape =>
      check_signer (acc_owner accs) ;;
      check_signer (acc_guardian accs) ;;
      check_owner_constraint (acc_owner accs) ;;
      check_guardian_constraint (acc_guardian accs)
  | TriggerEscapeGuardian | EscapeGuardian _ =>
      check_signer (acc_owner accs) ;;
      check_owner_constraint (acc_owner accs)
  | TriggerEscapeOwner | EscapeOwner _ =>
      check_signer (acc_guardian accs) ;;
      check_guardian_constraint (acc_guardian accs)
  | Upgrade =>
      check_signer (acc_owner accs) ;;
      check_signer (acc_guardian accs) ;;
      check_signer (acc_upgrade_authority accs) ;;
      check_owner_constraint (acc_owner accs) ;;
      check_guardian_constraint (acc_guardian accs)
  end.

Definition ctx_of (accs : Accounts) : Ctx :=
  {| owner_is_signer := is_signer (acc_owner accs);
     guardian_is_signer := is_signer (acc_guardian accs) |}.

(** The handler an instruction dispatches to. *)
Definition handler (ix : Instruction) (ctx : Ctx) (now : Z) (cpi : Result unit)
    : M unit :=
  match ix with
  | Execute d => execute ctx d
  | ChangeOwner o s => change_owner ctx o s
  | ChangeGuardian g => change_guardian ctx g
  | ChangeGuardianBackup b => change_guardian_backup ctx b
  | TriggerEscapeGuardian => trigger_escape_guardian ctx now
  | TriggerEscapeOwner => trigger_escape_owner ctx now
  | EscapeGuardian g => escape_guardian ctx now g
  | EscapeOwner o => escape_owner ctx now o
  | CancelEscape => cancel_escape ctx
  | Upgrade => upgrade ctx cpi
  end.

(** One instruction on an existing account, up to the end of its handler:
    account validation, then the handler. Anchor's exit step, which writes
    the record back, is added by [run_instruction] below. *)
Definition process (ix : Instruction) (accs : Accounts) (now : Z)
    (cpi : Result unit) : M unit :=
  try_accounts ix accs ;;
  handler ix (ctx_of accs) now cpi.

(** ** Borsh layout of the account ([#[account]], [AnchorSerialize])

    Anchor stores an [#[account]] as its 8-byte discriminator followed by
    the Borsh encoding of the struct, field by field in declaration order:
    a [Pubkey] as its 32 bytes, an [Option] as a tag byte (0 or 1) and the
    value, a fieldless enum as its variant index in one byte, an [i64] as 8
    little-endian bytes (two's complement), a [Vec<u8>] as a little-endian
    [u32] length and the bytes, a [bool] as one byte (0 or 1). The
    discriminator (the first 8 bytes of a hash of the account name) is an
    argument [disc]. *)

(** [space = 8 + 32 + 32 + 33 + 1 + 8 + 1 + 200] of the [Create] accounts
    struct: the size of the account [create] allocates. *)
Definition ARGENT_ACCOUNT_SPACE : nat := 8 + 32 + 32 + 33 + 1 + 8 + 1 + 200.

Definition byte_of_Z (z : Z) : byte :=
  match Byte.of_N (Z.to_N z) with Some b => b | None => x00 end.

(** The [n] low bytes of [v], least significant first ([v] is read modulo
    [256^n], which is two's complement for negative [v]). *)
Fixpoint le_bytes (n : nat) (v : Z) : list byte :=
  match n with
  | O => []
  | S n' => byte_of_Z (v mod 256) :: le_bytes n' (v / 256)
  end.

Definition encode_option {A} (f : A -> list byte) (o : option A) : list byte :=
  match o with None => [x00] | Some x => x01 :: f x end.

Definition encode_escape_type (e : EscapeType.t) : list byte :=
  match e with
  | EscapeType.None => [x00]
  | EscapeType.Guardian => [x01]
  | EscapeType.Owner => [x02]
  end.

Definition encode_bool (b : bool) : list byte := if b then [x01] else [x00].

Definition encode_pending_tx (p : PendingTransaction) : list byte :=
  le_bytes 4 (Z.of_nat (length (data p))) ++ data p ++
  encode_bool (owner_approved p) ++ encode_bool (guardian_approved p).

Definition encode_account (a : ArgentAccount) : list byte :=
  owner a ++ guardian a ++ encode_option (fun k => k) (guardian_backup a) ++
  encode_escape_type (escape_type a) ++ le_bytes 8 (escape_initiated_at a) ++
  le_bytes 8 (security_period a) ++ encode_option encode_pending_tx (pending_tx a).

(** [try_serialize]: discriminator, then the Borsh encoding. *)
Definition try_serialize (disc : list byte) (a : ArgentAccount) : list byte :=
  disc ++ encode_account a.

(** Writing the record back into the account data at the end of an
    instruction: it fails when the encoding does not fit the allocated
    space. *)
Definition fits_account_space (disc : list byte) (a : ArgentAccount) : bool :=
  Nat.leb (length (try_serialize disc a)) ARGENT_ACCOUNT_SPACE.

(** Decoding: a parser consumes a prefix of the bytes. *)
Definition Parser (A : Type) := list byte -> option (A * list byte).

Definition p_bind {A B} (p : Parser A) (k : A -> Parser B) : Parser B :=
  fun l => match p l with Some (x, r) => k x r | None => None end.
Definition p_ret {A} (x : A) : Parser A := fun l => Some (x, l).

Definition p_byte : Parser byte :=
  fun l => match l with b :: r => Some (b, r) | [] => None end.

Definition p_take (n : nat) : Parser (list byte) :=
  fun l => if Nat.leb n (length l) then Some (firstn n l, skipn n l) else None.

(** Unsigned little-endian value of [n] bytes. *)
Fixpoint p_le (n : nat) : Parser Z :=
  match n with
  | O => p_ret 0
  | S n' => p_bind p_byte (fun b => p_bind (p_le n') (fun v =>
              p_ret (Z.of_N (Byte.to_N b) + 256 * v)))
  end.

Definition p_i64 : Parser Z :=
  p_bind (p_le 8) (fun u => p_ret (if u <? 2 ^ 63 then u else u - 2 ^ 64)).

Definition p_option {A} (p : Parser A) : Parser (option A) :=
  p_bind p_byte (fun t =>
    match t with
    | x00 => p_ret None
    | x01 => p_bind p (fun x => p_ret (Some x))
    | _ => fun _ => None
    end).

Definition p_escape_type : Parser EscapeType.t :=
  p_bind p_byte (fun t =>
    match t with
    | x00 => p_ret EscapeType.None
    | x01 => p_ret EscapeType.Guardian
    | x02 => p_ret EscapeType.Owner
    | _ => fun _ => None
    end).

Definition p_bool : Parser bool :=
  p_bind p_byte (fun t =>
    match t with x00 => p_ret false | x01 => p_ret true | _ => fun _ => None end).

Definition p_pending_tx : Parser PendingTransaction :=
  p_bind (p_le 4) (fun n =>
  p_bind (p_take (Z.to_nat n)) (fun d =>
  p_bind p_bool (fun oa =>
  p_bind p_bool (fun ga =>
  p_ret {| data := d; owner_approved := oa; guardian_approved := ga |})))).

Definition p_account : Parser ArgentAccount :=
  p_bind (p_take 32) (fun o =>
  p_bind (p_take 32) (fun g =>
  p_bind (p_option (p_take 32)) (fun b =>
  p_bind p_escape_type (fun e =>
  p_bind p_i64 (fun t =>
  p_bind p_i64 (fun sp =>
  p_bind (p_option p_pending_tx) (fun p =>
  p_ret {| owner := o; guardian := g; guardian_backup := b; escape_type := e;
           escape_initiated_at := t; security_period := sp; pending_tx := p |}))))))).

(** [try_deserialize]: check the discriminator, then decode the struct;
    bytes after the struct (the unused rest of the account) are ignored. *)
Definition try_deserialize (disc : list byte) (l : list byte) : option ArgentAccount :=
  if list_eq_dec byte_eq_dec (firstn (length disc) l) disc
  then match p_account (skipn (length disc) l) with
       | Some (a, _) => Some a
       | None => None
       end
  else None.

(** A record as Anchor can hold it: 32-byte keys, [i64] integers, a
    [Vec<u8>] whose length is a [u32]. *)
Definition wf_account (a : ArgentAccount) : Prop :=
  length (owner a) = 32%nat /\ length (guardian a) = 32%nat /\
  (forall k, guardian_backup a = Some k -> length k = 32%nat) /\
  in_i64 (escape_initiated_at a) = true /\ in_i64 (security_period a) = true /\
  (forall p, pending_tx a = Some p -> Z.of_nat (length (data p)) < 2 ^ 32).

(** ** The whole instruction: Anchor's exit step

    Every accounts struct marks [argent_account] as [#[account(mut)]], so
    after a successful handler Anchor's [exit] serialises the record back
    into the account data, whose size is the [space] allocated by
    [create]: a record whose encoding does not fit fails with
    [AccountDidNotSerialize]. As in the handlers, the error is returned
    with the record as the program holds it (no rollback is assumed). *)

(** The discriminator of [ArgentAccount]: the first 8 bytes of the SHA-256
    hash of [account:ArgentAccount]. *)
Definition ARGENT_ACCOUNT_DISCRIMINATOR : list byte :=
  [xd7; x68; xb0; x7a; x8d; x0f; x1a; x96].

Definition exit_argent_account : M unit :=
  a <- get ;;
  if fits_account_space ARGENT_ACCOUNT_DISCRIMINATOR a then ret tt
  else throw AccountDidNotSerialize.

(** One instruction on an existing account, as Anchor runs it: account
    validation, the handler, then the exit step. *)
Definition run_instruction (ix : Instruction) (accs : Accounts) (now : Z)
    (cpi : Result unit) : M unit :=
  process ix accs now cpi ;;
  exit_argent_account.

(** The record [create] leaves in the freshly allocated (zeroed) account. *)
Definition zeroed_account : ArgentAccount :=
  {| owner := repeat x00 32; guardian := repeat x00 32; guardian_backup := None;
     escape_type := EscapeType.None; escape_initiated_at := 0;
     security_period := 0; pending_tx := None |}.

Definition created (o g : Pubkey) (sp : option Z) : ArgentAccount :=
  snd (create o g sp zeroed_account).


(** States reachable from [create] by successful instructions (exit step
    included) whose clock readings satisfy [clock_ok]; the writes of a
    failed instruction are discarded with its transaction, so it adds no
    state. *)
Inductive reachable (clock_ok : Z -> Prop) : ArgentAccount -> Prop :=
| reach_create o g sp : reachable clock_ok (created o g sp)
| reach_step a a' ix accs now cpi :
    reachable clock_ok a ->
    clock_ok now ->
    run_instruction ix accs now cpi a = (Ok tt, a') ->
    reachable clock_ok a'.

(** An account that has signed as [k]. *)
Definition signed_as (k : Pubkey) : AccountInfo := {| key := k; is_signer := true |}.

(** Sample keys. *)
Definition key_O1 : Pubkey := repeat x01 32.
Definition key_G1 : Pubkey := repeat x02 32.
Definition key_O2 : Pubkey := repeat x03 32.

(** ** Proof automation *)

Ltac unfold_m :=
  cbv [process try_accounts handler ctx_of check_signer check_owner_constraint
       check_guardian_constraint execute change_owner change_guardian
       change_guardian_backup trigger_escape_guardian trigger_escape_owner
       escape_guardian escape_owner cancel_escape upgrade create
       bind ret throw get modify require lift] in *.

Ltac split_ifs :=
  repeat match goal with
         | |- context [if ?b then _ else _] => destruct b eqn:?
         | H : context [if ?b then _ else _] |- _ => destruct b eqn:?
         | |- context [match ?r with Ok _ => _ | Err _ => _ end] =>
             destruct r eqn:?
         | H : context [match ?r with Ok _ => _ | Err _ => _ end] |- _ =>
             destruct r eqn:?
         end.

(** ** Scenarios of the spec, evaluated *)

Definition accs_of (o g : AccountInfo) : Accounts :=
  {| acc_owner := o; acc_guardian := g; acc_upgrade_authority := o |}.
Definition not_signed (k : Pubkey) : AccountInfo := {| key := k; is_signer := false |}.

Definition scen_a0 : ArgentAccount := created key_O1 key_G1 (Some 604800).
Definition scen_a1 : ArgentAccount :=
  snd (process TriggerEscapeOwner (accs_of (not_signed key_O1) (signed_as key_G1))
         1000 (Ok tt) scen_a0).

Example scenario_A_trigger :
  escape_type scen_a1 = EscapeType.Owner /\ escape_initiated_at scen_a1 = 1000.
Proof. split; reflexivity. Qed.

Example scenario_A_early :
  fst (process (EscapeOwner key_O2) (accs_of (not_signed key_O1) (signed_as key_G1))
         (1000 + 604799) (Ok tt) scen_a1) = Err (Program SecurityPeriodNotElapsed).
Proof. vm_compute. reflexivity. Qed.

Example scenario_A_on_time :
  let a2 := snd (process (EscapeOwner key_O2)
                   (accs_of (not_signed key_O1) (signed_as key_G1))
                   (1000 + 604800) (Ok tt) scen_a1) in
  owner a2 = key_O2 /\ escape_type a2 = EscapeType.None /\ escape_initiated_at a2 = 0.
Proof. vm_compute. repeat split. Qed.

(** ** Helper lemmas *)

(** Every successful instruction leaves the escape fields as they were,
    resets them to [(None, 0)], or sets an active escape at the clock value. *)
Lemma process_escape_fields ix accs now cpi a a' :
  process ix accs now cpi a = (Ok tt, a') ->
  (escape_type a' = escape_type a /\ escape_initiated_at a' = escape_initiated_at a)
  \/ (escape_type a' = EscapeType.None /\ escape_initiated_at a' = 0)
  \/ (escape_type a' <> EscapeType.None /\ escape_initiated_at a' = now).
Proof.
  intros H.
  destruct ix; unfold_m; split_ifs; inversion H; subst; simpl;
    first [ left; split; reflexivity
          | right; left; split; reflexivity
          | right; right; split; [discriminate | reflexivity] ].
Qed.

Lemma create_escape_fields o g sp s :
  escape_type (snd (create o g sp s)) = EscapeType.None /\
  escape_initiated_at (snd (create o g sp s)) = 0.
Proof. split; reflexivity. Qed.

(** *** The exit step and sizes *)

Lemma run_instruction_spec ix accs now cpi a :
  run_instruction ix accs now cpi a =
    match process ix accs now cpi a with
    | (Ok _, a') =>
        if fits_account_space ARGENT_ACCOUNT_DISCRIMINATOR a' then (Ok tt, a')
        else (Err AccountDidNotSerialize, a')
    | (Err e, a') => (Err e, a')
    end.
Proof.
  unfold run_instruction, exit_argent_account, bind, get, ret, throw.
  destruct (process ix accs now cpi a) as [[x|e] a']; [|reflexivity].
  destruct (fits_account_space ARGENT_ACCOUNT_DISCRIMINATOR a'); reflexivity.
Qed.

Lemma run_instruction_ok_process ix accs now cpi a a' :
  run_instruction ix accs now cpi a = (Ok tt, a') ->
  process ix accs now cpi a = (Ok tt, a').
Proof.
  rewrite run_instruction_spec.
  destruct (process ix accs now cpi a) as [[[]|e] a'']; [|discriminate].
  destruct (fits_account_space _ a''); congruence.
Qed.



Lemma length_le_bytes n v : length (le_bytes n v) = n.
Proof. revert v; induction n; intros v; simpl; [reflexivity | rewrite IHn; reflexivity]. Qed.

Lemma serialized_length disc a :
  length (owner a) = 32%nat -> length (guardian a) = 32%nat ->
  (forall k, guardian_backup a = Some k -> length k = 32%nat) ->
  length (try_serialize disc a) =
    (length disc + 81 +
     match guardian_backup a with None => 1 | Some _ => 33 end +
     match pending_tx a with None => 1 | Some p => 7 + length (data p) end)%nat.
Proof.
  intros Ho Hg Hb. unfold try_serialize, encode_account.
  destruct (guardian_backup a) as [k|]; [specialize (Hb k eq_refl) | clear Hb];
  destruct (escape_type a), (pending_tx a) as [p|];
  cbn [encode_option encode_escape_type]; unfold encode_pending_tx;
  try (destruct (owner_approved p), (guardian_approved p));
  cbn [encode_bool]; repeat rewrite ?length_app, ?length_le_bytes; cbn [length];
  repeat rewrite ?length_app, ?length_le_bytes; cbn [length];
  rewrite ?Ho, ?Hg, ?Hb; lia.
Qed.

(** The exit step's size test, for a record with 32-byte keys. *)
Lemma fits_account_space_size a :
  length (owner a) = 32%nat -> length (guardian a) = 32%nat ->
  (forall k, guardian_backup a = Some k -> length k = 32%nat) ->
  fits_account_space ARGENT_ACCOUNT_DISCRIMINATOR a =
    Nat.leb (89 + match guardian_backup a with None => 1 | Some _ => 33 end +
             match pending_tx a with None => 1 | Some p => 7 + length (data p) end)
            ARGENT_ACCOUNT_SPACE.
Proof.
  intros Ho Hg Hb. unfold fits_account_space.
  rewrite serialized_length by assumption. reflexivity.
Qed.

(** ** Claim C5: failures and writes *)





(** ** Claim C1: the escape invariant over reachable states *)

(** The owner triggers a guardian escape while the clock reads 0. *)
Definition c1_state : ArgentAccount :=
  snd (process TriggerEscapeGuardian
         (accs_of (signed_as key_O1) (not_signed key_G1)) 0 (Ok tt)
         (created key_O1 key_G1 None)).

(** [C1] (counterexample): with arbitrary clock readings the invariant fails:
    [create] then [trigger_escape_guardian] at clock 0 reaches a record with
    [escape_type = Guardian] and [escape_initiated_at = 0]. *)
Lemma escape_invariant_fails_at_clock_zero :
  ~ (forall a, reachable (fun _ => True) a ->
        (escape_type a = EscapeType.None <-> escape_initiated_at a = 0)).
Proof.
  intros Hinv.
  assert (Hr : reachable (fun _ => True) c1_state).
  { eapply reach_step with (a := created key_O1 key_G1 None) (ix := TriggerEscapeGuardian)
      (accs := accs_of (signed_as key_O1) (not_signed key_G1))
      (now := 0) (cpi := Ok tt);
      [ apply reach_create | exact I | vm_compute; reflexivity ]. }
  pose proof (proj2 (Hinv _ Hr) eq_refl) as Hn.
  vm_compute in Hn. discriminate Hn.
Qed.

(** [C1] (amended): in every reachable record (arbitrary clock readings)
    [escape_type == None] implies [escape_initiated_at == 0]; and when no
    instruction reads a clock value of 0, [escape_type == None] holds if and
    only if [escape_initiated_at == 0]. *)
Theorem escape_invariant_reachable :
  (forall a, reachable (fun _ => True) a ->
      escape_type a = EscapeType.None -> escape_initiated_at a = 0) /\
  (forall a, reachable (fun t => t <> 0) a ->
      (escape_type a = EscapeType.None <-> escape_initiated_at a = 0)).
Proof.
  split.
  - intros a Hr. induction Hr as [o g sp | a a' ix accs now cpi Hr IH Hc Hp].
    + intros _. apply create_escape_fields.
    + intros Hn. apply run_instruction_ok_process in Hp.
      destruct (process_escape_fields _ _ _ _ _ _ Hp) as [[E1 E2]|[[E1 E2]|[E1 E2]]].
      * rewrite E2. apply IH. congruence.
      * exact E2.
      * contradiction.
  - intros a Hr. induction Hr as [o g sp | a a' ix accs now cpi Hr IH Hc Hp].
    + destruct (create_escape_fields o g sp zeroed_account) as [E1 E2].
      unfold created. rewrite E1, E2. tauto.
    + apply run_instruction_ok_process in Hp.
      destruct (process_escape_fields _ _ _ _ _ _ Hp) as [[E1 E2]|[[E1 E2]|[E1 E2]]].
      * rewrite E1, E2. exact IH.
      * rewrite E1, E2. tauto.
      * rewrite E2. split; intros; contradiction.
Qed.

(** The owner triggers a guardian escape at clock 5; both signers then
    cancel it at clock 6. *)
Definition c1_triggered : ArgentAccount :=
  snd (run_instruction TriggerEscapeGuardian
         (accs_of (signed_as key_O1) (not_signed key_G1)) 5 (Ok tt)
         (created key_O1 key_G1 None)).
Definition c1_cancelled : ArgentAccount :=
  snd (run_instruction CancelEscape
         (accs_of (signed_as key_O1) (signed_as key_G1)) 6 (Ok tt) c1_triggered).

(** Witness: the first part after the trigger and the cancellation, the
    second part after the trigger. *)
Lemma escape_invariant_reachable_witness :
  escape_initiated_at c1_cancelled = 0 /\
  (escape_type c1_triggered = EscapeType.None <-> escape_initiated_at c1_triggered = 0).
Proof.
  split.
  - apply (proj1 escape_invariant_reachable); [|vm_compute; reflexivity].
    apply reach_step with (a := c1_triggered) (ix := CancelEscape)
      (accs := accs_of (signed_as key_O1) (signed_as key_G1)) (now := 6) (cpi := Ok tt);
      [| exact I | vm_compute; reflexivity].
    apply reach_step with (a := created key_O1 key_G1 None) (ix := TriggerEscapeGuardian)
      (accs := accs_of (signed_as key_O1) (not_signed key_G1)) (now := 5) (cpi := Ok tt);
      [apply reach_create | exact I | vm_compute; reflexivity].
  - apply (proj2 escape_invariant_reachable).
    apply reach_step with (a := created key_O1 key_G1 None) (ix := TriggerEscapeGuardian)
      (accs := accs_of (signed_as key_O1) (not_signed key_G1)) (now := 5) (cpi := Ok tt);
      [apply reach_create | discriminate | vm_compute; reflexivity].
Defined.

(** ** Helper lemmas on single instructions *)

Lemma pubkey_eqb_refl k : pubkey_eqb k k = true.
Proof. unfold pubkey_eqb. destruct (list_eq_dec byte_eq_dec k k); congruence. Qed.

Ltac run_signed :=
  unfold_m;
  repeat match goal with
         | H : acc_owner _ = _ |- _ => rewrite H in *; clear H
         | H : acc_guardian _ = _ |- _ => rewrite H in *; clear H
         end;
  cbn -[pubkey_eqb in_i64 zero_signature];
  rewrite ?pubkey_eqb_refl.

Lemma trigger_escape_guardian_ok a accs now cpi :
  acc_owner accs = signed_as (owner a) ->
  process TriggerEscapeGuardian accs now cpi a =
    (Ok tt, set_escape_initiated_at now (set_escape_type EscapeType.Guardian a)).
Proof. intros H. run_signed. reflexivity. Qed.

Lemma trigger_escape_owner_ok a accs now cpi :
  acc_guardian accs = signed_as (guardian a) ->
  escape_type a <> EscapeType.Guardian ->
  process TriggerEscapeOwner accs now cpi a =
    (Ok tt, set_escape_initiated_at now (set_escape_type EscapeType.Owner a)).
Proof.
  intros H Ht. run_signed.
  destruct (escape_type a); [reflexivity | congruence | reflexivity].
Qed.

Lemma trigger_escape_owner_blocked a accs now cpi :
  acc_guardian accs = signed_as (guardian a) ->
  escape_type a = EscapeType.Guardian ->
  process TriggerEscapeOwner accs now cpi a =
    (Err (Program EscapeGuardianInProgress), a).
Proof. intros H Ht. run_signed. rewrite Ht. reflexivity. Qed.

(** ** Claim C2: priority asymmetry of the two escape directions *)

(** [C2]: for every record, clock value and loader outcome: if
    [escape_type == Owner] and the owner has signed, [trigger_escape_guardian]
    succeeds and leaves the record with [escape_type = Guardian] and
    [escape_initiated_at = now] (no other field changed); if
    [escape_type == Guardian] and the guardian has signed,
    [trigger_escape_owner] fails with [EscapeGuardianInProgress]. *)
Theorem escape_priority_asymmetry a accs now cpi :
  (escape_type a = EscapeType.Owner ->
   acc_owner accs = signed_as (owner a) ->
   process TriggerEscapeGuardian accs now cpi a =
     (Ok tt, set_escape_initiated_at now (set_escape_type EscapeType.Guardian a))) /\
  (escape_type a = EscapeType.Guardian ->
   acc_guardian accs = signed_as (guardian a) ->
   fst (process TriggerEscapeOwner accs now cpi a) =
     Err (Program EscapeGuardianInProgress)).
Proof.
  split.
  - intros _ H. apply trigger_escape_guardian_ok; exact H.
  - intros Ht H. rewrite (trigger_escape_owner_blocked a accs now cpi H Ht).
    reflexivity.
Qed.

Definition c2_owner_escape : ArgentAccount :=
  set_escape_initiated_at 5 (set_escape_type EscapeType.Owner
                               (created key_O1 key_G1 None)).
Definition c2_guardian_escape : ArgentAccount :=
  set_escape_initiated_at 5 (set_escape_type EscapeType.Guardian
                               (created key_O1 key_G1 None)).

Lemma escape_priority_asymmetry_witness :
  process TriggerEscapeGuardian (accs_of (signed_as key_O1) (not_signed key_G1))
    100 (Ok tt) c2_owner_escape =
    (Ok tt, set_escape_initiated_at 100
              (set_escape_type EscapeType.Guardian c2_owner_escape)) /\
  fst (process TriggerEscapeOwner (accs_of (not_signed key_O1) (signed_as key_G1))
         100 (Ok tt) c2_guardian_escape) = Err (Program EscapeGuardianInProgress).
Proof.
  split.
  - apply (proj1 (escape_priority_asymmetry c2_owner_escape
                    (accs_of (signed_as key_O1) (not_signed key_G1)) 100 (Ok tt)));
      reflexivity.
  - apply (proj2 (escape_priority_asymmetry c2_guardian_escape
                    (accs_of (not_signed key_O1) (signed_as key_G1)) 100 (Ok tt)));
      reflexivity.
Defined.

(** ** Claim C10: the trigger stores the clock reading verbatim *)

(** [C10]: for every clock value [t] (0 and negative values included), a
    permitted trigger succeeds and stores [escape_initiated_at = t]:
    [trigger_escape_guardian] with the owner signed, and
    [trigger_escape_owner] with the guardian signed and
    [escape_type != Guardian]. *)
Theorem trigger_stores_clock_verbatim a accs t cpi :
  (acc_owner accs = signed_as (owner a) ->
   exists a', process TriggerEscapeGuardian accs t cpi a = (Ok tt, a') /\
              escape_initiated_at a' = t /\ escape_type a' = EscapeType.Guardian) /\
  (acc_guardian accs = signed_as (guardian a) ->
   escape_type a <> EscapeType.Guardian ->
   exists a', process TriggerEscapeOwner accs t cpi a = (Ok tt, a') /\
              escape_initiated_at a' = t /\ escape_type a' = EscapeType.Owner).
Proof.
  split.
  - intros H. rewrite (trigger_escape_guardian_ok a accs t cpi H).
    eexists; split; [reflexivity | split; reflexivity].
  - intros H Ht. rewrite (trigger_escape_owner_ok a accs t cpi H Ht).
    eexists; split; [reflexivity | split; reflexivity].
Qed.

Lemma trigger_stores_clock_verbatim_witness :
  (exists a', process TriggerEscapeGuardian
                (accs_of (signed_as key_O1) (not_signed key_G1)) 0 (Ok tt)
                (created key_O1 key_G1 None) = (Ok tt, a') /\
              escape_initiated_at a' = 0 /\ escape_type a' = EscapeType.Guardian) /\
  (exists a', process TriggerEscapeOwner
                (accs_of (not_signed key_O1) (signed_as key_G1)) (-7) (Ok tt)
                (created key_O1 key_G1 None) = (Ok tt, a') /\
              escape_initiated_at a' = -7 /\ escape_type a' = EscapeType.Owner).
Proof.
  split.
  - apply (proj1 (trigger_stores_clock_verbatim (created key_O1 key_G1 None)
                    (accs_of (signed_as key_O1) (not_signed key_G1)) 0 (Ok tt))).
    reflexivity.
  - apply (proj2 (trigger_stores_clock_verbatim (created key_O1 key_G1 None)
                    (accs_of (not_signed key_O1) (signed_as key_G1)) (-7) (Ok tt)));
      [reflexivity | discriminate].
Defined.

(** ** Claim C3: the time lock of the escape completions *)

(** The owner triggers a guardian escape at clock 1 on an account with a
    security period of 1 second. *)
Definition c3_state : ArgentAccount :=
  snd (process TriggerEscapeGuardian
         (accs_of (signed_as key_O1) (not_signed key_G1)) 1 (Ok tt)
         (created key_O1 key_G1 (Some 1))).

(** The guardian triggers an owner escape at clock 1 on an account with a
    security period of 1 second. *)
Definition c3_owner_state : ArgentAccount :=
  snd (process TriggerEscapeOwner
         (accs_of (not_signed key_O1) (signed_as key_G1)) 1 (Ok tt)
         (created key_O1 key_G1 (Some 1))).

(** [C3] (counterexample): at clock [i64::MIN] the elapsed time
    [now - escape_initiated_at] is below the security period, yet
    [escape_guardian] does not fail with [SecurityPeriodNotElapsed]: with
    overflow checks the [i64] subtraction aborts first; without them it
    wraps to [i64::MAX] and the handler succeeds. *)
Lemma escape_time_lock_fails_on_overflow :
  escape_type c3_state = EscapeType.Guardian /\
  I64_MIN - escape_initiated_at c3_state < security_period c3_state /\
  process (EscapeGuardian key_O2)
    (accs_of (signed_as key_O1) (not_signed key_G1)) I64_MIN (Ok tt) c3_state =
    (Err ArithmeticOverflow, c3_state) /\
  fst (escape_guardian_wrapping (ctx_of (accs_of (signed_as key_O1) (not_signed key_G1)))
         I64_MIN key_O2 c3_state) = Ok tt.
Proof. vm_compute. repeat split; reflexivity. Qed.

(** [C3] (amended): for every record whose [security_period] is an [i64],
    with the matching escape active and its signer present,
    [escape_guardian] (resp. [escape_owner]) fails with
    [SecurityPeriodNotElapsed] whenever [now - escape_initiated_at] is an
    [i64] (the subtraction does not overflow) and is below
    [security_period], and succeeds when [now - escape_initiated_at ==
    security_period], replacing the guardian (resp. owner) and resetting
    the escape state to [(None, 0)]. *)
Theorem escape_time_lock a accs now cpi k :
  in_i64 (security_period a) = true ->
  (escape_type a = EscapeType.Guardian ->
   acc_owner accs = signed_as (owner a) ->
   (in_i64 (now - escape_initiated_at a) = true ->
    now - escape_initiated_at a < security_period a ->
    process (EscapeGuardian k) accs now cpi a =
      (Err (Program SecurityPeriodNotElapsed), a)) /\
   (now - escape_initiated_at a = security_period a ->
    process (EscapeGuardian k) accs now cpi a =
      (Ok tt, set_escape_initiated_at 0
                (set_escape_type EscapeType.None (set_guardian k a))))) /\
  (escape_type a = EscapeType.Owner ->
   acc_guardian accs = signed_as (guardian a) ->
   (in_i64 (now - escape_initiated_at a) = true ->
    now - escape_initiated_at a < security_period a ->
    process (EscapeOwner k) accs now cpi a =
      (Err (Program SecurityPeriodNotElapsed), a)) /\
   (now - escape_initiated_at a = security_period a ->
    process (EscapeOwner k) accs now cpi a =
      (Ok tt, set_escape_initiated_at 0
                (set_escape_type EscapeType.None (set_owner k a))))).
Proof.
  intros Hsp. split; intros Ht Hs; split.
  - intros Hr Hlt. run_signed. rewrite Ht. cbn -[in_i64]. unfold i64_sub.
    rewrite Hr. cbn. replace (security_period a <=? now - escape_initiated_at a)
      with false by (symmetry; apply Z.leb_gt; lia). reflexivity.
  - intros He. run_signed. rewrite Ht. cbn -[in_i64]. unfold i64_sub.
    rewrite He, Hsp. cbn. rewrite Z.leb_refl. reflexivity.
  - intros Hr Hlt. run_signed. rewrite Ht. cbn -[in_i64]. unfold i64_sub.
    rewrite Hr. cbn. replace (security_period a <=? now - escape_initiated_at a)
      with false by (symmetry; apply Z.leb_gt; lia). reflexivity.
  - intros He. run_signed. rewrite Ht. cbn -[in_i64]. unfold i64_sub.
    rewrite He, Hsp. cbn. rewrite Z.leb_refl. reflexivity.
Qed.

Lemma escape_time_lock_witness :
  process (EscapeGuardian key_O2)
    (accs_of (signed_as key_O1) (not_signed key_G1)) 0 (Ok tt) c3_state =
    (Err (Program SecurityPeriodNotElapsed), c3_state) /\
  process (EscapeGuardian key_O2)
    (accs_of (signed_as key_O1) (not_signed key_G1)) 2 (Ok tt) c3_state =
    (Ok tt, set_escape_initiated_at 0
              (set_escape_type EscapeType.None (set_guardian key_O2 c3_state))) /\
  process (EscapeOwner key_O2)
    (accs_of (not_signed key_O1) (signed_as key_G1)) 0 (Ok tt) c3_owner_state =
    (Err (Program SecurityPeriodNotElapsed), c3_owner_state) /\
  process (EscapeOwner key_O2)
    (accs_of (not_signed key_O1) (signed_as key_G1)) 2 (Ok tt) c3_owner_state =
    (Ok tt, set_escape_initiated_at 0
              (set_escape_type EscapeType.None (set_owner key_O2 c3_owner_state))).
Proof.
  destruct (escape_time_lock c3_state (accs_of (signed_as key_O1) (not_signed key_G1))
              0 (Ok tt) key_O2 eq_refl) as [H0 _].
  destruct (escape_time_lock c3_state (accs_of (signed_as key_O1) (not_signed key_G1))
              2 (Ok tt) key_O2 eq_refl) as [H2 _].
  destruct (escape_time_lock c3_owner_state (accs_of (not_signed key_O1) (signed_as key_G1))
              0 (Ok tt) key_O2 eq_refl) as [_ K0].
  destruct (escape_time_lock c3_owner_state (accs_of (not_signed key_O1) (signed_as key_G1))
              2 (Ok tt) key_O2 eq_refl) as [_ K2].
  split; [|split; [|split]].
  - apply (proj1 (H0 eq_refl eq_refl)); vm_compute; reflexivity.
  - apply (proj2 (H2 eq_refl eq_refl)). vm_compute. reflexivity.
  - apply (proj1 (K0 eq_refl eq_refl)); vm_compute; reflexivity.
  - apply (proj2 (K2 eq_refl eq_refl)). vm_compute. reflexivity.
Defined.

(** ** Claim C4: the dual-signature gate *)

(** The instructions whose accounts struct and handler require both the
    owner and the guardian. *)
Definition dual_gated (ix : Instruction) : bool :=
  match ix with
  | Execute _ | ChangeOwner _ _ | ChangeGuardian _ | ChangeGuardianBackup _
  | CancelEscape | Upgrade => true
  | _ => false
  end.

(** The owner signs, the guardian does not. *)
Definition c4_accounts : Accounts :=
  accs_of (signed_as key_O1) (not_signed key_G1).

(** [C4] (counterexample): [execute] with only the owner signed fails, but
    with Anchor's [AccountNotSigner] (the [guardian: Signer<'info>] field is
    rejected before the handler runs), not with [NotEnoughApprovals]. *)
Lemma dual_gate_error_is_account_not_signer :
  ~ (forall ix accs now cpi a,
        dual_gated ix = true ->
        is_signer (acc_owner accs) && is_signer (acc_guardian accs) = false ->
        fst (process ix accs now cpi a) = Err (Program NotEnoughApprovals)).
Proof.
  intros H.
  specialize (H (Execute []) c4_accounts 0 (Ok tt) (created key_O1 key_G1 None)
                eq_refl eq_refl).
  vm_compute in H. discriminate H.
Qed.

(** [C4] (amended): for each of [change_owner], [change_guardian],
    [change_guardian_backup], [execute], [cancel_escape] and [upgrade],
    whenever the owner or the guardian account has not signed, the call
    fails with Anchor's [AccountNotSigner] and leaves the record unchanged;
    the handler's own check, given the same signer flags, fails with
    [NotEnoughApprovals]. *)
Theorem dual_gate_rejects ix accs now cpi a :
  dual_gated ix = true ->
  is_signer (acc_owner accs) && is_signer (acc_guardian accs) = false ->
  process ix accs now cpi a = (Err AccountNotSigner, a) /\
  fst (handler ix (ctx_of accs) now cpi a) = Err (Program NotEnoughApprovals).
Proof.
  intros Hg Hs.
  destruct accs as [[ko so] [kg sg] [ku su]]; cbn in Hs.
  destruct ix; try discriminate Hg;
    destruct so, sg; try discriminate Hs; unfold_m; cbn; split; reflexivity.
Qed.

Lemma dual_gate_rejects_witness :
  process (Execute []) c4_accounts 0 (Ok tt) (created key_O1 key_G1 None) =
    (Err AccountNotSigner, created key_O1 key_G1 None) /\
  fst (handler (Execute []) (ctx_of c4_accounts) 0 (Ok tt)
         (created key_O1 key_G1 None)) = Err (Program NotEnoughApprovals).
Proof. apply dual_gate_rejects; reflexivity. Defined.

(** ** Claim C6: the security period set by [create] *)

(** [C6] (counterexample): [create] with [security_period = Some 0] stores
    a security period of 0, which is not [> 0]. *)
Lemma create_security_period_not_positive :
  ~ (forall o g sp, 0 < security_period (created o g sp)).
Proof.
  intros H. specialize (H key_O1 key_G1 (Some 0)).
  vm_compute in H. discriminate H.
Qed.

(** [C6] (amended): after [create] on any prior account contents, the
    record's [security_period] is the provided value when one is given (it
    is not validated) and 604800 when none is given; it is [> 0] exactly
    when none is given or the given value is [> 0]. *)
Theorem create_security_period o g sp s :
  security_period (snd (create o g sp s)) =
    match sp with Some p => p | None => 604800 end /\
  (0 < security_period (snd (create o g sp s)) <->
   match sp with Some p => 0 < p | None => True end).
Proof.
  destruct sp as [p|]; cbn; split; try reflexivity; try tauto.
  split; [tauto | intros _; lia].
Qed.

(** ** Claim C9: the record created by [create] *)

(** [C9]: [create o g sp] (on any prior account contents) yields a record
    with [owner = o], [guardian = g], [guardian_backup = None],
    [escape_type = None], [escape_initiated_at = 0] and [pending_tx = None];
    so the escape invariant holds there. *)
Theorem create_initial_record o g sp s :
  let a := snd (create o g sp s) in
  owner a = o /\ guardian a = g /\ guardian_backup a = None /\
  escape_type a = EscapeType.None /\ escape_initiated_at a = 0 /\
  pending_tx a = None /\
  (escape_type a = EscapeType.None <-> escape_initiated_at a = 0).
Proof. cbn. repeat split; reflexivity. Qed.

(** ** Claim C7: [change_owner] with both signers *)

(** [C7]: when the owner and the guardian have both signed, [change_owner]
    fails with [InvalidSignature] if and only if [new_owner_signature] is
    the all-zero 64-byte array; otherwise it succeeds and the record
    becomes [set_owner new_owner a]: the owner replaced, every other field
    (the escape state included) unchanged. *)
Theorem change_owner_with_both_signers a accs now cpi new_owner sig :
  acc_owner accs = signed_as (owner a) ->
  acc_guardian accs = signed_as (guardian a) ->
  (fst (process (ChangeOwner new_owner sig) accs now cpi a) =
     Err (Program InvalidSignature) <-> sig = zero_signature) /\
  (sig <> zero_signature ->
   process (ChangeOwner new_owner sig) accs now cpi a =
     (Ok tt, set_owner new_owner a)).
Proof.
  intros Ho Hg. run_signed.
  destruct (list_eq_dec byte_eq_dec sig zero_signature) as [E|E]; cbn -[zero_signature].
  - split; [split; [intros _; exact E | intros _; reflexivity] | intros N; contradiction].
  - split; [split; [intros D; discriminate D | intros N; contradiction] | intros _; reflexivity].
Qed.

Lemma change_owner_with_both_signers_witness :
  (fst (process (ChangeOwner key_O2 zero_signature)
          (accs_of (signed_as key_O1) (signed_as key_G1)) 0 (Ok tt)
          (created key_O1 key_G1 None)) = Err (Program InvalidSignature)) /\
  process (ChangeOwner key_O2 (repeat x01 64))
    (accs_of (signed_as key_O1) (signed_as key_G1)) 0 (Ok tt)
    (created key_O1 key_G1 None) =
    (Ok tt, set_owner key_O2 (created key_O1 key_G1 None)).
Proof.
  split.
  - apply (proj1 (change_owner_with_both_signers (created key_O1 key_G1 None)
                    (accs_of (signed_as key_O1) (signed_as key_G1)) 0 (Ok tt)
                    key_O2 zero_signature eq_refl eq_refl)).
    reflexivity.
  - apply (proj2 (change_owner_with_both_signers (created key_O1 key_G1 None)
                    (accs_of (signed_as key_O1) (signed_as key_G1)) 0 (Ok tt)
                    key_O2 (repeat x01 64) eq_refl eq_refl)).
    discriminate.
Defined.

(** ** Claim C8: [cancel_escape] *)

(** Only the owner signs [cancel_escape] on a record with a guardian escape. *)
Definition c8_accounts : Accounts :=
  accs_of (signed_as key_O1) (not_signed key_G1).

(** [C8] (counterexample): [cancel_escape] with only the owner signed fails
    with Anchor's [AccountNotSigner], not with [NotEnoughApprovals]. *)
Lemma cancel_escape_one_signer_error :
  fst (process CancelEscape c8_accounts 0 (Ok tt) c2_guardian_escape) =
    Err AccountNotSigner /\
  Err AccountNotSigner <> Err (A := unit) (Program NotEnoughApprovals).
Proof. split; [reflexivity | discriminate]. Qed.

(** [C8] (amended): [cancel_escape] with one of the two signers missing
    fails with Anchor's [AccountNotSigner] and leaves the record unchanged
    (the handler's own check, given the same flags, fails with
    [NotEnoughApprovals]); with both signers present it fails with
    [NoEscapeInProgress] when [escape_type == None], and otherwise succeeds,
    resetting [escape_type] to [None] and [escape_initiated_at] to 0 and
    leaving every other field unchanged. *)
Theorem cancel_escape_cases a accs now cpi :
  (is_signer (acc_owner accs) && is_signer (acc_guardian accs) = false ->
   process CancelEscape accs now cpi a = (Err AccountNotSigner, a) /\
   fst (cancel_escape (ctx_of accs) a) = Err (Program NotEnoughApprovals)) /\
  (acc_owner accs = signed_as (owner a) ->
   acc_guardian accs = signed_as (guardian a) ->
   (escape_type a = EscapeType.None ->
    process CancelEscape accs now cpi a = (Err (Program NoEscapeInProgress), a)) /\
   (escape_type a <> EscapeType.None ->
    process CancelEscape accs now cpi a =
      (Ok tt, set_escape_initiated_at 0 (set_escape_type EscapeType.None a)))).
Proof.
  split.
  - intros Hs.
    destruct accs as [[ko so] [kg sg] [ku su]]; cbn in Hs.
    destruct so, sg; try discriminate Hs; unfold_m; cbn; split; reflexivity.
  - intros Ho Hg. run_signed. split.
    + intros Ht. rewrite Ht. reflexivity.
    + intros Ht. destruct (escape_type a); [contradiction | reflexivity | reflexivity].
Qed.

Lemma cancel_escape_cases_witness :
  process CancelEscape c8_accounts 0 (Ok tt) c2_guardian_escape =
    (Err AccountNotSigner, c2_guardian_escape) /\
  process CancelEscape (accs_of (signed_as key_O1) (signed_as key_G1)) 0 (Ok tt)
    (created key_O1 key_G1 None) =
    (Err (Program NoEscapeInProgress), created key_O1 key_G1 None) /\
  process CancelEscape (accs_of (signed_as key_O1) (signed_as key_G1)) 0 (Ok tt)
    c2_guardian_escape =
    (Ok tt, set_escape_initiated_at 0 (set_escape_type EscapeType.None c2_guardian_escape)).
Proof.
  split; [|split].
  - apply (proj1 (cancel_escape_cases c2_guardian_escape c8_accounts 0 (Ok tt))).
    reflexivity.
  - apply (proj2 (cancel_escape_cases (created key_O1 key_G1 None)
                    (accs_of (signed_as key_O1) (signed_as key_G1)) 0 (Ok tt))
                    eq_refl eq_refl).
    reflexivity.
  - apply (proj2 (cancel_escape_cases c2_guardian_escape
                    (accs_of (signed_as key_O1) (signed_as key_G1)) 0 (Ok tt))
                    eq_refl eq_refl).
    discriminate.
Defined.

(** * Further properties of the program *)

(** ** Roles of the accounts structs *)

(** The instructions whose accounts struct has an [owner: Signer] with the
    constraint [argent_account.owner == owner.key()]. *)
Definition needs_owner (ix : Instruction) : bool :=
  match ix with
  | TriggerEscapeOwner | EscapeOwner _ => false
  | _ => true
  end.

(** The instructions whose accounts struct has a [guardian: Signer] with the
    constraint [argent_account.guardian == guardian.key()]. *)
Definition needs_guardian (ix : Instruction) : bool :=
  match ix with
  | TriggerEscapeGuardian | EscapeGuardian _ => false
  | _ => true
  end.

Lemma pubkey_eqb_true k k' : pubkey_eqb k k' = true -> k = k'.
Proof. unfold pubkey_eqb. destruct (list_eq_dec byte_eq_dec k k'); congruence. Qed.

Lemma pubkey_eqb_false k k' : k <> k' -> pubkey_eqb k k' = false.
Proof. unfold pubkey_eqb. destruct (list_eq_dec byte_eq_dec k k'); congruence. Qed.

(** Case analysis on every account flag, key comparison and branch. *)
Ltac crush_ix H :=
  match goal with
  | accs : Accounts |- _ => destruct accs as [[ko so] [kg sg] [ku su]]
  end;
  unfold_m; unfold i64_sub in *; cbn -[pubkey_eqb in_i64 zero_signature] in H |- *;
  split_ifs; inversion H; subst; clear H.

(** ** The dual-gated writers, as whole instructions *)

(** [execute]: with the owner and the guardian signed, on a record with
    32-byte keys, the handler stores [pending_tx = Some {data,
    owner_approved: true, guardian_approved: true}] (replacing any earlier
    staged payload), and the instruction succeeds exactly when [data] has
    at most 218 bytes (186 with a backup guardian); a longer payload fails
    with [AccountDidNotSerialize] at the exit step. *)
Theorem execute_stages_pending_tx a accs now cpi d :
  acc_owner accs = signed_as (owner a) ->
  acc_guardian accs = signed_as (guardian a) ->
  length (owner a) = 32%nat -> length (guardian a) = 32%nat ->
  (forall k, guardian_backup a = Some k -> length k = 32%nat) ->
  run_instruction (Execute d) accs now cpi a =
    (if Nat.leb (length d) (match guardian_backup a with None => 218 | Some _ => 186 end)
     then Ok tt else Err AccountDidNotSerialize,
     set_pending_tx (Some {| data := d; owner_approved := true;
                             guardian_approved := true |}) a).
Proof.
  intros Ho Hg Hlo Hlg Hlb.
  assert (Hp : process (Execute d) accs now cpi a =
                 (Ok tt, set_pending_tx (Some {| data := d; owner_approved := true;
                                                 guardian_approved := true |}) a))
    by (run_signed; reflexivity).
  rewrite run_instruction_spec, Hp.
  rewrite fits_account_space_size by (cbn; assumption).
  cbn [set_pending_tx guardian_backup pending_tx data]. unfold ARGENT_ACCOUNT_SPACE.
  destruct (guardian_backup a);
    match goal with |- (if Nat.leb ?x ?y then _ else _) = (if Nat.leb ?z ?w then _ else _, _) =>
      destruct (Nat.leb_spec x y), (Nat.leb_spec z w) end;
    first [reflexivity | lia].
Qed.

Lemma execute_stages_pending_tx_witness :
  run_instruction (Execute (repeat x07 218)) (accs_of (signed_as key_O1) (signed_as key_G1))
    0 (Ok tt) (created key_O1 key_G1 None) =
    (Ok tt, set_pending_tx (Some {| data := repeat x07 218; owner_approved := true;
                                    guardian_approved := true |})
              (created key_O1 key_G1 None)) /\
  run_instruction (Execute (repeat x07 219)) (accs_of (signed_as key_O1) (signed_as key_G1))
    0 (Ok tt) (created key_O1 key_G1 None) =
    (Err AccountDidNotSerialize,
     set_pending_tx (Some {| data := repeat x07 219; owner_approved := true;
                             guardian_approved := true |})
       (created key_O1 key_G1 None)).
Proof.
  split; rewrite execute_stages_pending_tx;
    first [reflexivity | intros k E; discriminate E].
Defined.

(** [change_guardian] and [change_guardian_backup]: with both signers, on
    a record with 32-byte keys that fits its account, and with 32-byte key
    arguments, each handler writes its one field only (neither touches the
    escape state nor the other guardian field). [change_guardian] always
    succeeds; [change_guardian_backup] fails with [AccountDidNotSerialize]
    exactly when it sets a backup guardian while a staged payload of more
    than 186 bytes is pending, since the record then outgrows the
    account. *)
Theorem change_guardian_fields a accs now cpi g b :
  acc_owner accs = signed_as (owner a) ->
  acc_guardian accs = signed_as (guardian a) ->
  length (owner a) = 32%nat -> length (guardian a) = 32%nat ->
  (forall k, guardian_backup a = Some k -> length k = 32%nat) ->
  length g = 32%nat -> (forall k, b = Some k -> length k = 32%nat) ->
  fits_account_space ARGENT_ACCOUNT_DISCRIMINATOR a = true ->
  run_instruction (ChangeGuardian g) accs now cpi a = (Ok tt, set_guardian g a) /\
  run_instruction (ChangeGuardianBackup b) accs now cpi a =
    (if match b, pending_tx a with
        | Some _, Some p => Nat.leb (length (data p)) 186
        | _, _ => true
        end
     then Ok tt else Err AccountDidNotSerialize,
     set_guardian_backup b a).
Proof.
  intros Ho Hg Hlo Hlg Hlb Hg' Hb' Hfit.
  assert (P1 : process (ChangeGuardian g) accs now cpi a = (Ok tt, set_guardian g a))
    by (run_signed; reflexivity).
  assert (P2 : process (ChangeGuardianBackup b) accs now cpi a =
                 (Ok tt, set_guardian_backup b a))
    by (run_signed; reflexivity).
  rewrite !run_instruction_spec, P1, P2.
  rewrite fits_account_space_size in Hfit by assumption.
  rewrite !fits_account_space_size by (cbn; assumption).
  cbn [set_guardian set_guardian_backup guardian_backup pending_tx owner guardian].
  rewrite Hfit. split; [reflexivity|].
  apply Nat.leb_le in Hfit. revert Hfit. unfold ARGENT_ACCOUNT_SPACE.
  destruct b as [k|], (guardian_backup a), (pending_tx a); intros Hfit;
    repeat match goal with |- context [Nat.leb ?x ?y] => destruct (Nat.leb_spec x y) end;
    first [reflexivity | lia].
Qed.

(** A payload of 200 bytes staged on a new record without a backup
    guardian. *)
Definition x2_staged : ArgentAccount :=
  set_pending_tx (Some {| data := repeat x07 200; owner_approved := true;
                          guardian_approved := true |})
    (created key_O1 key_G1 None).

Lemma change_guardian_fields_witness :
  run_instruction (ChangeGuardian key_O2) (accs_of (signed_as key_O1) (signed_as key_G1))
    0 (Ok tt) x2_staged = (Ok tt, set_guardian key_O2 x2_staged) /\
  run_instruction (ChangeGuardianBackup (Some key_O2))
    (accs_of (signed_as key_O1) (signed_as key_G1)) 0 (Ok tt) x2_staged =
    (Err AccountDidNotSerialize, set_guardian_backup (Some key_O2) x2_staged).
Proof.
  destruct (change_guardian_fields x2_staged (accs_of (signed_as key_O1) (signed_as key_G1))
              0 (Ok tt) key_O2 (Some key_O2) eq_refl eq_refl eq_refl eq_refl
              ltac:(intros k E; discriminate E) eq_refl
              ltac:(intros k E; injection E as <-; reflexivity) eq_refl) as [H1 H2].
  split; [exact H1 | rewrite H2; reflexivity].
Defined.

(** ** The exit step: what can outgrow the account *)




(** ** Authorization *)

Lemma role_signers_of_success ix accs now cpi a a' :
  process ix accs now cpi a = (Ok tt, a') ->
  (needs_owner ix = true -> acc_owner accs = signed_as (owner a)) /\
  (needs_guardian ix = true -> acc_guardian accs = signed_as (guardian a)).
Proof.
  intros H. destruct ix; crush_ix H;
    repeat match goal with E : pubkey_eqb _ _ = true |- _ =>
             apply pubkey_eqb_true in E end;
    subst; unfold signed_as; split; intros; try discriminate; reflexivity.
Qed.

(** A successful instruction was signed, for each role its accounts struct
    has, by the account whose key is the record's current owner (resp.
    guardian): no call by any other key, or without its signature, writes
    the record. *)
Theorem success_requires_role_signers ix accs now cpi a a' :
  process ix accs now cpi a = (Ok tt, a') ->
  (needs_owner ix = true -> acc_owner accs = signed_as (owner a)) /\
  (needs_guardian ix = true -> acc_guardian accs = signed_as (guardian a)).
Proof. apply role_signers_of_success. Qed.

Lemma success_requires_role_signers_witness :
  acc_owner (accs_of (signed_as key_O1) (not_signed key_G1)) =
    signed_as (owner (created key_O1 key_G1 None)).
Proof.
  apply (proj1 (success_requires_role_signers TriggerEscapeGuardian
                  (accs_of (signed_as key_O1) (not_signed key_G1)) 0 (Ok tt)
                  (created key_O1 key_G1 None) c1_state eq_refl)).
  reflexivity.
Defined.

(** ** What a successful instruction writes *)

Definition writes_owner (ix : Instruction) : bool :=
  match ix with ChangeOwner _ _ | EscapeOwner _ => true | _ => false end.
Definition writes_guardian (ix : Instruction) : bool :=
  match ix with ChangeGuardian _ | EscapeGuardian _ => true | _ => false end.
Definition writes_guardian_backup (ix : Instruction) : bool :=
  match ix with ChangeGuardianBackup _ => true | _ => false end.
Definition writes_pending_tx (ix : Instruction) : bool :=
  match ix with Execute _ => true | _ => false end.

(** Field frame of the instructions: no instruction changes
    [security_period] (it is set by [create] only); only [change_owner] and
    [escape_owner] change [owner]; only [change_guardian] and
    [escape_guardian] change [guardian]; only [change_guardian_backup]
    changes [guardian_backup]; only [execute] changes [pending_tx]. *)
Theorem instruction_field_frame ix accs now cpi a a' :
  process ix accs now cpi a = (Ok tt, a') ->
  security_period a' = security_period a /\
  (writes_owner ix = false -> owner a' = owner a) /\
  (writes_guardian ix = false -> guardian a' = guardian a) /\
  (writes_guardian_backup ix = false -> guardian_backup a' = guardian_backup a) /\
  (writes_pending_tx ix = false -> pending_tx a' = pending_tx a).
Proof.
  intros H. destruct ix; crush_ix H; cbn;
    repeat split; intros; first [reflexivity | discriminate].
Qed.

Lemma instruction_field_frame_witness :
  security_period c1_state = security_period (created key_O1 key_G1 None).
Proof.
  apply (proj1 (instruction_field_frame TriggerEscapeGuardian
                  (accs_of (signed_as key_O1) (not_signed key_G1)) 0 (Ok tt)
                  (created key_O1 key_G1 None) c1_state eq_refl)).
Defined.

(** ** Error codes the program never returns *)

(** No instruction ends with [NotEnoughApprovals], [InvalidOwner] or
    [InvalidGuardian]: the last two are declared and never raised, and the
    handlers' [NotEnoughApprovals] checks are preceded by the [Signer]
    checks of their accounts structs, which reject the same calls with
    [AccountNotSigner]. The loader invoked by [upgrade] is assumed not to
    return one of this program's own error codes. *)
Theorem unreachable_error_codes ix accs now cpi a e a' :
  (forall c, cpi <> Err (Program c)) ->
  process ix accs now cpi a = (Err e, a') ->
  e <> Program NotEnoughApprovals /\ e <> Program InvalidOwner /\ e <> Program InvalidGuardian.
Proof.
  intros Hc H. destruct ix; crush_ix H; repeat split; try discriminate;
    intros ->; first [eapply Hc; eassumption | eapply Hc; reflexivity].
Qed.

Lemma unreachable_error_codes_witness :
  AccountNotSigner <> Program NotEnoughApprovals.
Proof.
  exact (proj1 (unreachable_error_codes (Execute []) c4_accounts 0 (Ok tt)
                  (created key_O1 key_G1 None) AccountNotSigner
                  (created key_O1 key_G1 None) ltac:(discriminate) eq_refl)).
Defined.

(** ** Escape completion and composition of instructions *)

(** A completion succeeds only on its own escape direction once the security
    period has elapsed: when [escape_guardian] (resp. [escape_owner])
    succeeds, the record before the call had [escape_type = Guardian]
    (resp. [Owner]) and [security_period <= now - escape_initiated_at]. *)
Theorem completion_requires_elapsed_period k accs now cpi a a' :
  (process (EscapeGuardian k) accs now cpi a = (Ok tt, a') ->
   escape_type a = EscapeType.Guardian /\
   security_period a <= now - escape_initiated_at a) /\
  (process (EscapeOwner k) accs now cpi a = (Ok tt, a') ->
   escape_type a = EscapeType.Owner /\
   security_period a <= now - escape_initiated_at a).
Proof.
  split; intros H; crush_ix H;
    repeat match goal with
           | E : EscapeType.eqb _ _ = true |- _ => apply EscapeType.eqb_spec in E
           | E : (_ <=? _) = true |- _ => apply Z.leb_le in E
           end;
    split; assumption.
Qed.

Lemma completion_requires_elapsed_period_witness :
  escape_type c3_state = EscapeType.Guardian /\
  security_period c3_state <= 2 - escape_initiated_at c3_state.
Proof.
  apply (proj1 (completion_requires_elapsed_period key_O2
                  (accs_of (signed_as key_O1) (not_signed key_G1)) 2 (Ok tt) c3_state
                  (set_escape_initiated_at 0
                     (set_escape_type EscapeType.None (set_guardian key_O2 c3_state))))).
  vm_compute. reflexivity.
Defined.

(** While a guardian escape is in progress, neither instruction the guardian
    can send alone ([trigger_escape_owner], [escape_owner]) succeeds, with
    any accounts and at any clock value, and both leave the record as it
    is. *)
Theorem guardian_locked_out_during_guardian_escape accs now cpi k a :
  escape_type a = EscapeType.Guardian ->
  (exists e, process TriggerEscapeOwner accs now cpi a = (Err e, a)) /\
  (exists e, process (EscapeOwner k) accs now cpi a = (Err e, a)).
Proof.
  intros Ht. destruct accs as [[ko so] [kg sg] [ku su]].
  unfold_m; unfold i64_sub; destruct sg; cbn -[pubkey_eqb in_i64];
    [destruct (pubkey_eqb (guardian a) kg); cbn -[in_i64]; rewrite ?Ht |];
    split; eexists; reflexivity.
Qed.

Lemma guardian_locked_out_during_guardian_escape_witness :
  (exists e, process TriggerEscapeOwner (accs_of (not_signed key_O1) (signed_as key_G1))
               7 (Ok tt) c3_state = (Err e, c3_state)) /\
  (exists e, process (EscapeOwner key_O2) (accs_of (not_signed key_O1) (signed_as key_G1))
               7 (Ok tt) c3_state = (Err e, c3_state)).
Proof. apply guardian_locked_out_during_guardian_escape. reflexivity. Defined.

(** A replaced key is revoked: when a successful instruction changes the
    guardian (resp. owner), no later instruction whose accounts struct has a
    guardian (resp. owner) role succeeds with the old key in that role. *)
Theorem replaced_key_is_revoked ix0 accs0 now0 cpi0 a a' :
  process ix0 accs0 now0 cpi0 a = (Ok tt, a') ->
  (guardian a' <> guardian a ->
   forall ix accs now cpi a'', needs_guardian ix = true ->
     key (acc_guardian accs) = guardian a ->
     process ix accs now cpi a' <> (Ok tt, a'')) /\
  (owner a' <> owner a ->
   forall ix accs now cpi a'', needs_owner ix = true ->
     key (acc_owner accs) = owner a ->
     process ix accs now cpi a' <> (Ok tt, a'')).
Proof.
  intros _. split.
  - intros Hne ix accs now cpi a'' Hn Hk Hp.
    apply (proj2 (role_signers_of_success _ _ _ _ _ _ Hp)) in Hn.
    apply Hne. rewrite <- Hk, Hn. reflexivity.
  - intros Hne ix accs now cpi a'' Hn Hk Hp.
    apply (proj1 (role_signers_of_success _ _ _ _ _ _ Hp)) in Hn.
    apply Hne. rewrite <- Hk, Hn. reflexivity.
Qed.

Definition x_rotated : ArgentAccount := set_guardian key_O2 (created key_O1 key_G1 None).

Lemma replaced_key_is_revoked_witness :
  process TriggerEscapeOwner (accs_of (not_signed key_O1) (signed_as key_G1)) 0 (Ok tt)
    x_rotated <> (Ok tt, x_rotated).
Proof.
  apply (proj1 (replaced_key_is_revoked (ChangeGuardian key_O2)
                  (accs_of (signed_as key_O1) (signed_as key_G1)) 0 (Ok tt)
                  (created key_O1 key_G1 None) x_rotated eq_refl));
    [discriminate | reflexivity | reflexivity].
Defined.

(** The owner alone can always replace the guardian: from any record, a
    [trigger_escape_guardian] at clock [t] followed by [escape_guardian k]
    at a clock [t'] with [security_period <= t' - t] (the difference an
    [i64]) succeeds, and leaves the guardian [k] with no escape in
    progress. *)
Theorem owner_can_always_escape_guardian a accs t t' cpi k :
  acc_owner accs = signed_as (owner a) ->
  in_i64 (t' - t) = true ->
  security_period a <= t' - t ->
  let a1 := snd (process TriggerEscapeGuardian accs t cpi a) in
  process (EscapeGuardian k) accs t' cpi a1 =
    (Ok tt, set_escape_initiated_at 0 (set_escape_type EscapeType.None (set_guardian k a1))).
Proof.
  intros Ho Hr Hle a1.
  assert (E1 : a1 = set_escape_initiated_at t (set_escape_type EscapeType.Guardian a)).
  { unfold a1. rewrite (trigger_escape_guardian_ok a accs t cpi Ho). reflexivity. }
  rewrite E1. unfold_m. rewrite Ho. cbn -[pubkey_eqb in_i64].
  rewrite pubkey_eqb_refl. unfold i64_sub.
  cbv [set_escape_initiated_at set_escape_type set_guardian]; cbn -[in_i64].
  rewrite Hr. apply Z.leb_le in Hle. rewrite Hle. reflexivity.
Qed.

Lemma owner_can_always_escape_guardian_witness :
  let a1 := snd (process TriggerEscapeGuardian
                   (accs_of (signed_as key_O1) (not_signed key_G1)) 10 (Ok tt)
                   (created key_O1 key_G1 None)) in
  process (EscapeGuardian key_O2) (accs_of (signed_as key_O1) (not_signed key_G1))
    (10 + 604800) (Ok tt) a1 =
    (Ok tt, set_escape_initiated_at 0 (set_escape_type EscapeType.None
                                         (set_guardian key_O2 a1))).
Proof.
  apply owner_can_always_escape_guardian; [reflexivity | reflexivity | vm_compute; discriminate].
Defined.

(** ** Borsh layout: an example and the round trip *)

Example borsh_example :
  let a := set_pending_tx (Some {| data := [x07; x08]; owner_approved := true;
                                    guardian_approved := true |})
             (set_escape_initiated_at (-5) (set_escape_type EscapeType.Owner
                (created key_O1 key_G1 (Some 3)))) in
  try_deserialize (repeat xff 8) (try_serialize (repeat xff 8) a ++ [x00; x00]) = Some a.
Proof. vm_compute. reflexivity. Qed.

(** *** The [execute] payload and the allocated space *)

(** The record written back after a successful [execute data] fits the
    [space] allocated by [create] (315 bytes) exactly when [data] has at
    most 186 bytes if a backup guardian is set, and at most 218 bytes if
    not; a longer payload makes the instruction fail when Anchor writes the
    account back. *)
Theorem execute_payload_fits_space disc a accs now cpi d a' :
  length disc = 8%nat ->
  length (owner a) = 32%nat -> length (guardian a) = 32%nat ->
  (forall k, guardian_backup a = Some k -> length k = 32%nat) ->
  process (Execute d) accs now cpi a = (Ok tt, a') ->
  fits_account_space disc a' =
    Nat.leb (length d) (match guardian_backup a with None => 218 | Some _ => 186 end).
Proof.
  intros Hd Ho Hg Hb H.
  assert (Ea : a' = set_pending_tx (Some {| data := d; owner_approved := true;
                                            guardian_approved := true |}) a)
    by (clear Hd Ho Hg Hb; crush_ix H; reflexivity).
  subst a'. unfold fits_account_space.
  rewrite serialized_length by first [exact Ho | exact Hg | exact Hb].
  cbn [pending_tx set_pending_tx guardian_backup data].
  rewrite Hd. unfold ARGENT_ACCOUNT_SPACE.
  destruct (guardian_backup a);
    match goal with |- Nat.leb ?x ?y = Nat.leb ?z ?w =>
      destruct (Nat.leb_spec x y), (Nat.leb_spec z w) end; lia.
Qed.

Lemma execute_payload_fits_space_witness :
  fits_account_space (repeat xff 8)
    (set_pending_tx (Some {| data := repeat x07 219; owner_approved := true;
                             guardian_approved := true |})
       (created key_O1 key_G1 None)) = false.
Proof.
  apply (execute_payload_fits_space (repeat xff 8) (created key_O1 key_G1 None)
           (accs_of (signed_as key_O1) (signed_as key_G1)) 0 (Ok tt) (repeat x07 219));
    try reflexivity; discriminate.
Defined.

(** *** Decoding inverts encoding *)

Lemma p_bind_ok {A B} (p : Parser A) (k : A -> Parser B) l x r :
  p l = Some (x, r) -> p_bind p k l = k x r.
Proof. unfold p_bind. intros ->. reflexivity. Qed.

Lemma firstn_skipn_length_app (l r : list byte) :
  firstn (length l) (l ++ r) = l /\ skipn (length l) (l ++ r) = r.
Proof. induction l as [|b l IH]; simpl; [split; reflexivity | destruct IH as [-> ->]; split; reflexivity]. Qed.

Lemma p_take_app l r : p_take (length l) (l ++ r) = Some (l, r).
Proof.
  unfold p_take. rewrite length_app.
  replace (Nat.leb (length l) (length l + length r)) with true
    by (symmetry; apply Nat.leb_le; lia).
  destruct (firstn_skipn_length_app l r) as [-> ->]. reflexivity.
Qed.

Lemma byte_of_Z_to_N z : 0 <= z < 256 -> Z.of_N (Byte.to_N (byte_of_Z z)) = z.
Proof.
  intros Hz. unfold byte_of_Z.
  destruct (Byte.of_N (Z.to_N z)) as [b|] eqn:E.
  - apply Byte.to_of_N in E. rewrite E. apply Z2N.id. lia.
  - apply Byte.of_N_None_iff in E. lia.
Qed.

Lemma mod_256_mul v m : 0 < m -> v mod (256 * m) = v mod 256 + 256 * ((v / 256) mod m).
Proof.
  intros Hm. symmetry. apply Z.mod_unique with (q := v / 256 / m).
  - left. pose proof (Z.mod_pos_bound v 256 ltac:(lia)).
    pose proof (Z.mod_pos_bound (v / 256) m Hm). nia.
  - pose proof (Z.div_mod v 256 ltac:(lia)).
    pose proof (Z.div_mod (v / 256) m ltac:(lia)). nia.
Qed.

Lemma p_le_le_bytes n v r :
  p_le n (le_bytes n v ++ r) = Some (v mod 256 ^ Z.of_nat n, r).
Proof.
  revert v. induction n as [|n IH]; intros v.
  - simpl. rewrite Z.mod_1_r. reflexivity.
  - cbn [p_le le_bytes app]. unfold p_bind at 1. cbn [p_byte].
    rewrite (p_bind_ok _ _ _ _ _ (IH (v / 256))). unfold p_ret.
    rewrite byte_of_Z_to_N by (apply Z.mod_pos_bound; lia).
    rewrite Nat2Z.inj_succ, Z.pow_succ_r by lia.
    rewrite mod_256_mul by (apply Z.pow_pos_nonneg; lia). reflexivity.
Qed.

Lemma p_i64_le_bytes v r :
  in_i64 v = true -> p_i64 (le_bytes 8 v ++ r) = Some (v, r).
Proof.
  intros Hv. unfold in_i64, I64_MIN, I64_MAX in Hv.
  apply andb_true_iff in Hv as [H1 H2]. apply Z.leb_le in H1, H2.
  unfold p_i64. rewrite (p_bind_ok _ _ _ _ _ (p_le_le_bytes 8 v r)). unfold p_ret.
  change (256 ^ Z.of_nat 8) with (2 ^ 64).
  destruct (Z.ltb_spec v 0) as [Hn|Hn].
  - replace (v mod 2 ^ 64) with (v + 2 ^ 64).
    + destruct (Z.ltb_spec (v + 2 ^ 64) (2 ^ 63)); [lia | f_equal; f_equal; lia].
    + apply Z.mod_unique with (q := -1); lia.
  - rewrite Z.mod_small by lia.
    destruct (Z.ltb_spec v (2 ^ 63)); [reflexivity | lia].
Qed.

Lemma p_option_encode {A} (p : Parser A) (f : A -> list byte) o r :
  (forall x, o = Some x -> forall r', p (f x ++ r') = Some (x, r')) ->
  p_option p (encode_option f o ++ r) = Some (o, r).
Proof.
  intros Hp. destruct o as [x|]; unfold p_option, p_bind; cbn.
  - rewrite (Hp x eq_refl). reflexivity.
  - reflexivity.
Qed.

Lemma p_escape_type_encode e r : p_escape_type (encode_escape_type e ++ r) = Some (e, r).
Proof. destruct e; reflexivity. Qed.

Lemma p_bool_encode b r : p_bool (encode_bool b ++ r) = Some (b, r).
Proof. destruct b; reflexivity. Qed.

Lemma p_pending_tx_encode p r :
  Z.of_nat (length (data p)) < 2 ^ 32 ->
  p_pending_tx (encode_pending_tx p ++ r) = Some (p, r).
Proof.
  intros Hl. unfold p_pending_tx, encode_pending_tx. rewrite <- !app_assoc.
  rewrite (p_bind_ok _ _ _ _ _ (p_le_le_bytes 4 _ _)).
  change (256 ^ Z.of_nat 4) with (2 ^ 32).
  rewrite Z.mod_small by lia. rewrite Nat2Z.id.
  rewrite (p_bind_ok _ _ _ _ _ (p_take_app _ _)).
  rewrite (p_bind_ok _ _ _ _ _ (p_bool_encode _ _)).
  rewrite (p_bind_ok _ _ _ _ _ (p_bool_encode _ _)).
  destruct p; reflexivity.
Qed.

Lemma p_account_encode a r :
  wf_account a -> p_account (encode_account a ++ r) = Some (a, r).
Proof.
  intros (Ho & Hg & Hb & Ht & Hs & Hp).
  unfold p_account, encode_account. rewrite <- !app_assoc.
  rewrite <- Ho at 1. rewrite (p_bind_ok _ _ _ _ _ (p_take_app _ _)).
  rewrite <- Hg at 1. rewrite (p_bind_ok _ _ _ _ _ (p_take_app _ _)).
  rewrite (p_bind_ok _ _ _ _ _
             (p_option_encode (p_take 32) (fun k => k) _ _
                (fun k E r' => eq_ind _ (fun n => p_take n (k ++ r') = Some (k, r'))
                                 (p_take_app k r') _ (Hb k E)))).
  rewrite (p_bind_ok _ _ _ _ _ (p_escape_type_encode _ _)).
  rewrite (p_bind_ok _ _ _ _ _ (p_i64_le_bytes _ _ Ht)).
  rewrite (p_bind_ok _ _ _ _ _ (p_i64_le_bytes _ _ Hs)).
  rewrite (p_bind_ok _ _ _ _ _
             (p_option_encode p_pending_tx encode_pending_tx _ _
                (fun p E r' => p_pending_tx_encode p r' (Hp p E)))).
  destruct a; reflexivity.
Qed.

(** Round trip of the stored record: for every record Anchor can hold (keys
    of 32 bytes, [i64] fields, a payload whose length is a [u32]),
    deserializing the serialized account, followed by any trailing bytes
    (the unused rest of the allocation), gives back the record. *)
Theorem account_serialization_roundtrip disc a r :
  wf_account a -> try_deserialize disc (try_serialize disc a ++ r) = Some a.
Proof.
  intros Hwf. unfold try_deserialize, try_serialize. rewrite <- app_assoc.
  destruct (firstn_skipn_length_app disc (encode_account a ++ r)) as [E1 E2].
  rewrite E1, E2, (p_account_encode a r Hwf).
  destruct (list_eq_dec byte_eq_dec disc disc); [reflexivity | contradiction].
Qed.

Lemma account_serialization_roundtrip_witness :
  try_deserialize (repeat xff 8)
    (try_serialize (repeat xff 8) c3_state ++ repeat x00 100) = Some c3_state.
Proof.
  apply account_serialization_roundtrip.
  unfold wf_account. split; [reflexivity|]. split; [reflexivity|].
  split; [intros k E; discriminate E|]. split; [reflexivity|].
  split; [reflexivity|]. intros p E; discriminate E.
Defined.
